(** * gokv: the MongoDB store of the key-value abstraction

    A shallow embedding of [mongodb/mongodb.go] (the [Client] and its
    [Set], [Get] and [Delete] operations) and of the [Store] interface of
    [storage.go], together with the laws of the store contract.

    Conventions.
    - A Go [error] is [option error]: [None] is the nil error.
    - A Go interface value [any] is [option A]: [None] is the nil
      interface.  The value handed to [Set] is the value to store; the value
      handed to [Get] is a pointer to the caller's destination, which is
      identified here with the contents of that destination.  [Get] returns
      the contents the destination has afterwards.
    - The MongoDB collection is reached through a pointer shared by every
      copy of the [Client]; the operations therefore return the client
      after the call next to their Go results. *)

From Stdlib Require Import String List.
From stdpp Require Import base option gmap strings.

Local Open Scope string_scope.

(** ** Errors *)

(** The errors the store can hand to its caller, by origin. *)
Inductive error : Type :=
| InvalidKeyError                       (* util.CheckKey *)
| InvalidValueError                     (* util.CheckVal *)
| ErrNotFound                           (* mgo.ErrNotFound *)
| EngineError (msg : string)            (* every other error of the driver *)
| SerializationError (msg : string)     (* Codec.Marshal *)
| DeserializationError (msg : string).  (* Codec.Unmarshal *)

#[global] Instance error_eq_dec : EqDecision error.
Proof. solve_decision. Defined.

(** [interface{}] / [any]. *)
Definition any (A : Type) : Type := option A.

(** [[]byte]. *)
Definition bytes : Type := list Byte.byte.

(** ** package context *)

Module context.

(** Only what a caller can build is needed: the operations of the store
    take a context and never look at it. *)
Inductive Context : Type :=
| Background
| WithCancel (parent : Context) (canceled : bool)
| WithDeadline (parent : Context) (deadline : nat).

End context.

(** ** package time *)

Module time.

(** [time.Duration] counts nanoseconds. *)
Definition Second : Z := 1000000000.

End time.

(** ** package util *)

Module util.

(** Modelled from the spec: [util.CheckKey] is not among the sources.
    Section 4.2: it fails with [InvalidKeyError] if the key is the empty
    string. *)
Definition CheckKey (k : string) : option error :=
  if decide (k = EmptyString) then Some InvalidKeyError else None.

(** Modelled from the spec: [util.CheckKeyAndValue] is not among the
    sources.  Section 4.2: it runs [CheckKey], then fails with
    [InvalidValueError] if the value is a nil reference (for writes) or
    is not a non-nil destination (for reads). *)
Definition CheckKeyAndValue {A : Type} (k : string) (v : any A) : option error :=
  match CheckKey k with
  | Some err => Some err
  | None =>
      match v with
      | None => Some InvalidValueError
      | Some _ => None
      end
  end.

End util.

(** ** package encoding *)

Module encoding.

(** The [Codec] interface.  [Unmarshal data v] returns the contents of
    the destination [v] after the call next to the error; on an error the
    codec may already have written to the destination. *)
Class Codec (Value : Type) : Type := {
  Marshal : any Value -> bytes * option error;
  Unmarshal : bytes -> any Value -> any Value * option error
}.

End encoding.

(** ** package mgo

    The MongoDB driver (github.com/globalsign/mgo), as far as the client
    uses it: a collection with [UpsertId], [FindId], [One] and [RemoveId],
    after the documentation of the driver. *)

Module mgo.

Section Collection.

Context {D : Type}.

(** A collection: its documents by [_id], and what the link to the
    server does on the driver calls to come.  Each call consumes one
    reply: [Some msg] makes the call fail with a driver error and
    leaves the documents alone, [None] (or no reply left) lets the
    server carry the command out. *)
Record Collection : Type := mkCollection {
  documents : gmap string D;
  replies : list (option string)
}.

(** The failure the next driver call would meet, if any. *)
Definition next_fault (col : Collection) : option string :=
  match replies col with
  | Some msg :: _ => Some msg
  | _ => None
  end.

(** The collection once a call has been answered, with these
    documents. *)
Definition answered (col : Collection) (docs : gmap string D) : Collection :=
  {| documents := docs; replies := tail (replies col) |}.

(** [UpsertId(id, update)]: replaces the document of that id, or
    inserts it.  The [*ChangeInfo] result is left out: the client
    discards it. *)
Definition UpsertId (col : Collection) (id : string) (update : D)
  : Collection * option error :=
  match next_fault col with
  | Some msg => (answered col (documents col), Some (EngineError msg))
  | None => (answered col (<[id := update]> (documents col)), None)
  end.

(** [FindId(id)]: a query, not yet sent. *)
Record Query : Type := mkQuery {
  target : Collection;
  selector : string
}.

Definition FindId (col : Collection) (id : string) : Query :=
  {| target := col; selector := id |}.

(** [q.One(result)]: runs the query and writes the document it finds
    to [result]; [ErrNotFound] when there is none. *)
Definition One (q : Query) (result : D) : (Collection * D) * option error :=
  let col := target q in
  match next_fault col with
  | Some msg => (answered col (documents col), result, Some (EngineError msg))
  | None =>
      match documents col !! selector q with
      | Some doc => (answered col (documents col), doc, None)
      | None => (answered col (documents col), result, Some ErrNotFound)
      end
  end.

(** [RemoveId(id)]: removes the document of that id; [ErrNotFound]
    when there is none. *)
Definition RemoveId (col : Collection) (id : string) : Collection * option error :=
  match next_fault col with
  | Some msg => (answered col (documents col), Some (EngineError msg))
  | None =>
      match documents col !! id with
      | Some _ => (answered col (delete id (documents col)), None)
      | None => (answered col (documents col), Some ErrNotFound)
      end
  end.

End Collection.

Arguments Collection : clear implicits.
Arguments Query : clear implicits.

End mgo.

(** ** package gokv: the store interface *)

Module gokv.

(** [Store]: what every implementation offers.  [S] is the store,
    [Value] the values it is used with. *)
Class Store (S Value : Type) : Type := {
  Set_ : S -> string -> any Value -> S * option error;
  Get : S -> string -> any Value -> (S * any Value) * (bool * option error)
}.

Section JSON.

(** [json.Marshal] and [json.Unmarshal] of Go's encoding/json, which the
    two helpers hand their arguments to. *)
Context {Value : Type}.
Variable json_Marshal : any Value -> bytes * option error.
Variable json_Unmarshal : bytes -> any Value -> any Value * option error.

Definition toJSON (v : any Value) : bytes * option error :=
  json_Marshal v.

Definition fromJSON (data : bytes) (v : any Value) : any Value * option error :=
  json_Unmarshal data v.

End JSON.

End gokv.

(** ** package mongodb *)

Module mongodb.

Import encoding.

(** The document stored in the collection. *)
Record item : Type := mkItem {
  K : string;   (* the _id *)
  V : bytes
}.

(** [new(item)]. *)
Definition new_item : item := {| K := EmptyString; V := [] |}.

Section Client.

Context {Value : Type}.

(** [Client].  The session is only used by [Close] and is left out. *)
Record Client : Type := mkClient {
  c : mgo.Collection item;
  codec : Codec Value
}.

(** The client whose collection has become [col]. *)
Definition with_c (cl : Client) (col : mgo.Collection item) : Client :=
  {| c := col; codec := codec cl |}.

Definition SetWithContext (_ : context.Context) (cl : Client) (k : string) (v : any Value)
  : Client * option error :=
  match util.CheckKeyAndValue k v with
  | Some err => (cl, Some err)
  | None =>
      (* First turn the passed object into something that MongoDB can handle *)
      let '(data, err) := Marshal (Codec := codec cl) v in
      match err with
      | Some err => (cl, Some err)
      | None =>
          let item := {| K := k; V := data |} in
          let '(col, err) := mgo.UpsertId (c cl) k item in
          match err with
          | Some err => (with_c cl col, Some err)
          | None => (with_c cl col, None)
          end
      end
  end.

Definition Set_ (cl : Client) (k : string) (v : any Value) : Client * option error :=
  let ctx := context.Background in
  SetWithContext ctx cl k v.

Definition GetWithContext (_ : context.Context) (cl : Client) (k : string) (v : any Value)
  : (Client * any Value) * (bool * option error) :=
  match util.CheckKeyAndValue k v with
  | Some err => (cl, v, (false, Some err))
  | None =>
      let item := new_item in
      let '(col, item, err) := mgo.One (mgo.FindId (c cl) k) item in
      (* If no value was found return false *)
      if decide (err = Some ErrNotFound) then (with_c cl col, v, (false, None))
      else if decide (err <> None) then (with_c cl col, v, (false, err))
      else
        let data := V item in
        let '(v', err) := Unmarshal (Codec := codec cl) data v in
        (with_c cl col, v', (true, err))
  end.

Definition Get (cl : Client) (k : string) (v : any Value)
  : (Client * any Value) * (bool * option error) :=
  let ctx := context.Background in
  GetWithContext ctx cl k v.

Definition DeleteWithContext (_ : context.Context) (cl : Client) (k : string)
  : Client * option error :=
  match util.CheckKey k with
  | Some err => (cl, Some err)
  | None =>
      let '(col, err) := mgo.RemoveId (c cl) k in
      if decide (err <> Some ErrNotFound) then (with_c cl col, err)
      else (with_c cl col, None)
  end.

Definition Delete (cl : Client) (k : string) : Client * option error :=
  let ctx := context.Background in
  DeleteWithContext ctx cl k.

(** [Client] is a [gokv.Store]. *)
#[global] Instance Client_Store : gokv.Store Client Value := {
  gokv.Set_ := Set_;
  gokv.Get := Get
}.

End Client.

Arguments Client : clear implicits.

Section NewClient.

Context {Value : Type}.

(** [encoding.JSON], the codec of the default options; package encoding
    is not among the sources. *)
Variable JSON : Codec Value.

(** The sessions of the driver: [mgo.DialWithTimeout(url, timeout)], and
    [session.DB(name).C(name)], the collection of that name in the
    database of that name. *)
Variable Session : Type.
Variable DialWithTimeout : string -> Z -> Session * option error.
Variable DB_C : Session -> string -> string -> mgo.Collection item.

(** [Options].  The field [Codec] is [Codec_] here, the interface having
    the name; a nil codec is [None]. *)
Record Options : Type := mkOptions {
  ConnectionString : string;
  DatabaseName : string;
  CollectionName : string;
  Codec_ : any (Codec Value)
}.

Definition DefaultOptions : Options := {|
  ConnectionString := "localhost";
  DatabaseName := "gokv";
  CollectionName := "item";
  Codec_ := Some JSON
|}.

(** [NewClient].  Go returns a client next to the error; the client that
    comes with a non-nil error is the zero [Client] and is left out, as is
    the session of the client that comes with a nil error. *)
Definition NewClient (options : Options) : Client Value + error :=
  (* Set default values *)
  let options :=
    if decide (ConnectionString options = EmptyString)
    then {| ConnectionString := ConnectionString DefaultOptions;
            DatabaseName := DatabaseName options;
            CollectionName := CollectionName options;
            Codec_ := Codec_ options |}
    else options in
  let options :=
    if decide (DatabaseName options = EmptyString)
    then {| ConnectionString := ConnectionString options;
            DatabaseName := DatabaseName DefaultOptions;
            CollectionName := CollectionName options;
            Codec_ := Codec_ options |}
    else options in
  let options :=
    if decide (CollectionName options = EmptyString)
    then {| ConnectionString := ConnectionString options;
            DatabaseName := DatabaseName options;
            CollectionName := CollectionName DefaultOptions;
            Codec_ := Codec_ options |}
    else options in
  let options :=
    match Codec_ options with
    | None => {| ConnectionString := ConnectionString options;
                 DatabaseName := DatabaseName options;
                 CollectionName := CollectionName options;
                 Codec_ := Codec_ DefaultOptions |}
    | Some _ => options
    end in
  let '(session, err) := DialWithTimeout (ConnectionString options) (2 * time.Second)%Z in
  match err with
  | Some err => inr err
  | None =>
      let col := DB_C session (DatabaseName options) (CollectionName options) in
      match Codec_ options with
      | Some cd => inl {| c := col; codec := cd |}
      | None => inl {| c := col; codec := JSON |}   (* the default has filled it *)
      end
  end.

End NewClient.

Arguments Options : clear implicits.

End mongodb.


(** ** Clients and codec used in the examples *)

Module fixtures.

Import encoding mongodb.

(** A codec for Go strings: a tag byte, then the bytes of the string.  A
    payload without the tag is refused, and by then the destination has
    been reset to the empty string. *)
Definition tag : Byte.byte := Byte.x73.

#[global] Instance string_codec : Codec string := {
  Marshal v :=
    match v with
    | Some s => (tag :: list_byte_of_string s, None)
    | None => ([], Some (SerializationError "nil value"))
    end;
  Unmarshal data v :=
    match v with
    | None => (None, Some (DeserializationError "nil destination"))
    | Some _ =>
        match data with
        | b :: rest =>
            if Byte.eqb b tag then (Some (string_of_list_byte rest), None)
            else (Some EmptyString, Some (DeserializationError "unknown tag"))
        | [] => (Some EmptyString, Some (DeserializationError "no payload"))
        end
    end
}.

(** A client on an empty collection whose server answers every call. *)
Definition fresh : Client string :=
  {| c := {| mgo.documents := ∅; mgo.replies := [] |}; codec := string_codec |}.

(** A client on an empty collection whose link fails on the first call. *)
Definition flaky : Client string :=
  {| c := {| mgo.documents := ∅; mgo.replies := [Some "connection reset"] |};
     codec := string_codec |}.

(** A client whose collection holds, under "a", a payload that
    [string_codec] did not write. *)
Definition foreign : Client string :=
  {| c := {| mgo.documents := {[ "a" := {| K := "a"; V := [Byte.x00] |} ]};
             mgo.replies := [] |};
     codec := string_codec |}.

End fixtures.


(** ** Vocabulary of the laws *)

Module contract.

Import mongodb.

Section Vocabulary.

Context {Value : Type}.

(** The entries of the store: the documents of the client's collection. *)
Definition entries (cl : Client Value) : gmap string item :=
  mgo.documents (c cl).

(** The server will answer the next call of the client. *)
Definition up (cl : Client Value) : Prop :=
  mgo.next_fault (c cl) = None.

(** The client after one driver call that left the entries as they
    were. *)
Definition after_call (cl : Client Value) : Client Value :=
  with_c cl (mgo.answered (c cl) (mgo.documents (c cl))).

(** The client after one driver call that left these entries. *)
Definition after_write (cl : Client Value) (docs : gmap string item) : Client Value :=
  with_c cl (mgo.answered (c cl) docs).

End Vocabulary.

End contract.

(** ** Invariant of the collection, and more examples *)

Module invariant.

Import mongodb contract.

(** Every document sits under its own [_id]: the key of the entry is the
    [K] of the item. *)
Definition well_keyed {Value : Type} (cl : Client Value) : Prop :=
  forall (id : string) (it : item), entries cl !! id = Some it -> K it = id.

End invariant.

Module samples.

Import encoding mongodb fixtures.

(** A codec like [string_codec] that refuses to marshal the empty
    string. *)
#[global] Instance picky_codec : Codec string := {
  Marshal v :=
    match v with
    | Some EmptyString => ([], Some (SerializationError "empty string"))
    | _ => Marshal (Codec := string_codec) v
    end;
  Unmarshal := Unmarshal (Codec := string_codec)
}.

(** A client with [picky_codec] on an empty collection. *)
Definition picky : Client string :=
  {| c := {| mgo.documents := ∅; mgo.replies := [] |}; codec := picky_codec |}.

(** A client whose collection holds entries under "a" and "b", and whose
    link fails on the second call to come. *)
Definition stocked : Client string :=
  {| c := {| mgo.documents :=
               {[ "a" := {| K := "a"; V := tag :: list_byte_of_string "one" |};
                  "b" := {| K := "b"; V := tag :: list_byte_of_string "two" |} ]};
             mgo.replies := [None; Some "connection reset"] |};
     codec := string_codec |}.

(** A server that is reached under "localhost" only and whose collections
    are all empty.  A session is the address it was dialled with. *)
Definition dial (url : string) (timeout : Z) : string * option error :=
  if decide (url = "localhost") then (url, None)
  else (url, Some (EngineError "no reachable servers")).

Definition collection_of (session db coll : string) : mgo.Collection item :=
  {| mgo.documents := ∅; mgo.replies := [] |}.

End samples.

(** * Lemmas on validation and on the driver *)

Section Validation.

Import util.

Lemma CheckKey_nonempty (k : string) :
  k <> EmptyString -> CheckKey k = None.
Proof.
  intros Hk. unfold CheckKey. destruct (decide (k = EmptyString)); [contradiction | reflexivity].
Qed.

Lemma CheckKey_passes (k : string) :
  CheckKey k = None -> k <> EmptyString.
Proof.
  unfold CheckKey. destruct (decide (k = EmptyString)); [discriminate | auto].
Qed.

Lemma CheckKeyAndValue_empty {A : Type} (v : any A) :
  CheckKeyAndValue EmptyString v = Some InvalidKeyError.
Proof. reflexivity. Qed.

Lemma CheckKeyAndValue_nil {A : Type} (k : string) :
  k <> EmptyString -> CheckKeyAndValue k (None : any A) = Some InvalidValueError.
Proof.
  intros Hk. unfold CheckKeyAndValue. rewrite (CheckKey_nonempty k Hk). reflexivity.
Qed.

Lemma CheckKeyAndValue_valid {A : Type} (k : string) (d : A) :
  k <> EmptyString -> CheckKeyAndValue k (Some d) = None.
Proof.
  intros Hk. unfold CheckKeyAndValue. rewrite (CheckKey_nonempty k Hk). reflexivity.
Qed.

Lemma CheckKeyAndValue_passes {A : Type} (k : string) (v : any A) :
  CheckKeyAndValue k v = None -> k <> EmptyString /\ exists d, v = Some d.
Proof.
  unfold CheckKeyAndValue. destruct (CheckKey k) eqn:Hkey; [discriminate |].
  destruct v as [d |]; [| discriminate].
  intros _. split; [apply CheckKey_passes; exact Hkey | exists d; reflexivity].
Qed.

End Validation.

Section Driver.

Import mgo.

Context {D : Type}.

Implicit Types (col : Collection D) (id : string) (doc res : D).

Lemma One_found col id doc res :
  next_fault col = None -> documents col !! id = Some doc ->
  One (FindId col id) res = (answered col (documents col), doc, None).
Proof.
  intros Hup Hdoc. unfold One, FindId. simpl. rewrite Hup, Hdoc. reflexivity.
Qed.

Lemma One_missing col id res :
  next_fault col = None -> documents col !! id = None ->
  One (FindId col id) res = (answered col (documents col), res, Some ErrNotFound).
Proof.
  intros Hup Hdoc. unfold One, FindId. simpl. rewrite Hup, Hdoc. reflexivity.
Qed.

Lemma One_failed col id res msg :
  next_fault col = Some msg ->
  One (FindId col id) res = (answered col (documents col), res, Some (EngineError msg)).
Proof.
  intros Hdown. unfold One, FindId. simpl. rewrite Hdown. reflexivity.
Qed.

(** The driver reports [ErrNotFound] only for a lookup that the server
    answered and that found no document. *)
Lemma One_not_found col id res :
  snd (One (FindId col id) res) = Some ErrNotFound ->
  next_fault col = None /\ documents col !! id = None.
Proof.
  unfold One, FindId. simpl.
  destruct (next_fault col) as [msg |]; [discriminate |].
  destruct (documents col !! id) as [doc |]; [discriminate | auto].
Qed.

End Driver.

(** * The operations, case by case *)

Section Operations.

Import encoding mongodb contract.

Context {Value : Type}.

Implicit Types (cl : Client Value) (k : string) (v out : any Value)
  (ctx : context.Context) (e : error).

(** Validation refuses the arguments: nothing else happens. *)
Lemma Set_refused cl k v e :
  util.CheckKeyAndValue k v = Some e -> Set_ cl k v = (cl, Some e).
Proof.
  intros Hcheck. unfold Set_, SetWithContext. rewrite Hcheck. reflexivity.
Qed.

Lemma Get_refused cl k out e :
  util.CheckKeyAndValue k out = Some e -> Get cl k out = (cl, out, (false, Some e)).
Proof.
  intros Hcheck. unfold Get, GetWithContext. rewrite Hcheck. reflexivity.
Qed.

Lemma Delete_refused cl k e :
  util.CheckKey k = Some e -> Delete cl k = (cl, Some e).
Proof.
  intros Hcheck. unfold Delete, DeleteWithContext. rewrite Hcheck. reflexivity.
Qed.

(** A write that goes through: the entry of [k] becomes the marshalled
    value. *)
Lemma Set_stored cl k v :
  util.CheckKeyAndValue k v = None ->
  snd (Marshal (Codec := codec cl) v) = None ->
  up cl ->
  Set_ cl k v =
    (after_write cl (<[k := {| K := k; V := fst (Marshal (Codec := codec cl) v) |}]> (entries cl)),
     None).
Proof.
  intros Hcheck Hmarshal Hup. unfold Set_, SetWithContext. rewrite Hcheck.
  destruct (Marshal v) as [data err]. simpl in Hmarshal. subst err.
  unfold mgo.UpsertId. unfold up in Hup. rewrite Hup. reflexivity.
Qed.

(** [Set] returns a nil error only for a write that went through. *)
Lemma Set_succeeded cl k v :
  snd (Set_ cl k v) = None ->
  util.CheckKeyAndValue k v = None /\
  snd (Marshal (Codec := codec cl) v) = None /\
  up cl.
Proof.
  unfold Set_, SetWithContext, up.
  destruct (util.CheckKeyAndValue k v) as [e |]; [discriminate |].
  destruct (Marshal v) as [data [e |]]; [discriminate |].
  unfold mgo.UpsertId. destruct (mgo.next_fault (c cl)) as [msg |]; [discriminate |].
  auto.
Qed.

(** A lookup of a key without entry. *)
Lemma Get_missing cl k out :
  util.CheckKeyAndValue k out = None -> up cl -> entries cl !! k = None ->
  Get cl k out = (after_call cl, out, (false, None)).
Proof.
  intros Hcheck Hup Hnone. unfold Get, GetWithContext. rewrite Hcheck.
  rewrite (One_missing _ _ _ Hup Hnone). reflexivity.
Qed.

(** A lookup of a key with an entry: the codec decides the rest. *)
Lemma Get_entry cl k out (it : item) :
  util.CheckKeyAndValue k out = None -> up cl -> entries cl !! k = Some it ->
  Get cl k out =
    (after_call cl, fst (Unmarshal (Codec := codec cl) (V it) out),
     (true, snd (Unmarshal (Codec := codec cl) (V it) out))).
Proof.
  intros Hcheck Hup Hsome. unfold Get, GetWithContext. rewrite Hcheck.
  rewrite (One_found _ _ _ _ Hup Hsome). simpl.
  destruct (Unmarshal (V it) out) as [v' err]. reflexivity.
Qed.

(** A lookup that the driver fails. *)
Lemma Get_failed cl k out msg :
  util.CheckKeyAndValue k out = None -> mgo.next_fault (c cl) = Some msg ->
  Get cl k out = (after_call cl, out, (false, Some (EngineError msg))).
Proof.
  intros Hcheck Hdown. unfold Get, GetWithContext. rewrite Hcheck.
  rewrite (One_failed _ _ _ _ Hdown). reflexivity.
Qed.

(** A removal that the server answers: the entry is gone and the error is
    nil, whether there was an entry or not. *)
Lemma Delete_answered cl k :
  k <> EmptyString -> up cl ->
  Delete cl k = (after_write cl (delete k (entries cl)), None).
Proof.
  intros Hk Hup. unfold Delete, DeleteWithContext.
  rewrite (CheckKey_nonempty k Hk).
  unfold mgo.RemoveId, after_write, entries. unfold up in Hup. rewrite Hup.
  destruct (mgo.documents (c cl) !! k) as [doc |] eqn:Hdoc; simpl; [reflexivity |].
  rewrite delete_id by exact Hdoc. reflexivity.
Qed.

End Operations.

(** What a [Set] leaves behind, whatever its outcome. *)

Section Writes.

Import encoding mongodb contract.

Context {Value : Type}.

Implicit Types (cl : Client Value) (k : string) (v out : any Value).

Lemma Set_codec cl k v : codec (fst (Set_ cl k v)) = codec cl.
Proof.
  unfold Set_, SetWithContext.
  destruct (util.CheckKeyAndValue k v); [reflexivity |].
  destruct (Marshal v) as [data [e |]]; [reflexivity |].
  destruct (mgo.UpsertId (c cl) k _) as [col [e |]]; reflexivity.
Qed.

(** A [Set] touches no entry but that of its key. *)
Lemma Set_entries cl k v :
  entries (fst (Set_ cl k v)) = entries cl \/
  entries (fst (Set_ cl k v)) =
    <[k := {| K := k; V := fst (Marshal (Codec := codec cl) v) |}]> (entries cl).
Proof.
  unfold Set_, SetWithContext, entries.
  destruct (util.CheckKeyAndValue k v); [left; reflexivity |].
  destruct (Marshal v) as [data [e |]]; [left; reflexivity |].
  unfold mgo.UpsertId. destruct (mgo.next_fault (c cl)); [left | right]; reflexivity.
Qed.

End Writes.

(** * The claims *)

Section Laws.

Import encoding mongodb contract.

Context {Value : Type}.

Implicit Types (cl : Client Value) (k : string) (v out : any Value)
  (d : Value) (ctx : context.Context) (e : error) (it : item).

(** C1, as amended.  Absence law: for every non-empty key without entry in
    the store and every non-nil destination, a [Get] that the server
    answers returns (false, nil), not an error, and the destination is
    as it was. *)
Theorem absence_law cl k d :
  k <> EmptyString -> up cl -> entries cl !! k = None ->
  Get cl k (Some d) = (after_call cl, Some d, (false, None)).
Proof.
  intros Hk Hup Hnone.
  apply Get_missing; [apply CheckKeyAndValue_valid; exact Hk | exact Hup | exact Hnone].
Qed.

(** C2.  Overwrite law: after [Set k v1] and then a [Set k v2] that
    returned nil, a [Get k] into a non-nil destination, answered by the
    server, returns (true, nil) and leaves [v2] in the destination,
    for a codec that gives [v2] back from its own output.  The entries are
    those of the store before the two writes with the entry of [k]
    replaced: nothing of [v1] is kept. *)
Theorem overwrite_law cl k v1 v2 d :
  let s1 := fst (Set_ cl k v1) in
  let s2 := fst (Set_ s1 k v2) in
  snd (Set_ s1 k v2) = None ->
  up s2 ->
  Unmarshal (Codec := codec cl) (fst (Marshal (Codec := codec cl) v2)) (Some d) = (v2, None) ->
  Get s2 k (Some d) = (after_call s2, v2, (true, None)) /\
  entries s2 = <[k := {| K := k; V := fst (Marshal (Codec := codec cl) v2) |}]> (entries cl).
Proof.
  intros s1 s2 Hset Hup Hround.
  destruct (Set_succeeded s1 k v2 Hset) as (Hcheck & Hmarshal & Hup1).
  destruct (CheckKeyAndValue_passes k v2 Hcheck) as [Hk _].
  assert (Hcodec1 : codec s1 = codec cl) by apply Set_codec.
  assert (Hcodec2 : codec s2 = codec cl).
  { unfold s2. rewrite Set_codec. exact Hcodec1. }
  assert (Hentries : entries s2 =
            <[k := {| K := k; V := fst (Marshal (Codec := codec cl) v2) |}]> (entries cl)).
  { unfold s2. rewrite (Set_stored s1 k v2 Hcheck Hmarshal Hup1). simpl.
    unfold after_write, entries at 1. simpl. rewrite Hcodec1.
    destruct (Set_entries cl k v1) as [Hsame | Hnew].
    - fold s1 in Hsame. rewrite Hsame. reflexivity.
    - fold s1 in Hnew. rewrite Hnew. apply insert_insert_eq. }
  split; [| exact Hentries].
  rewrite (Get_entry s2 k (Some d) {| K := k; V := fst (Marshal (Codec := codec cl) v2) |}).
  - simpl. rewrite Hcodec2, Hround. reflexivity.
  - apply CheckKeyAndValue_valid; exact Hk.
  - exact Hup.
  - rewrite Hentries. apply lookup_insert_eq.
Qed.

(** C3, as amended.  Validation law: [Set] and [Get] with the empty key
    fail with the invalid-key error, whatever the value or the
    destination, and [Set] of a nil value under a non-empty key fails
    with the invalid-value error. *)
Theorem validation_law cl k v out :
  snd (Set_ cl EmptyString v) = Some InvalidKeyError /\
  snd (Get cl EmptyString out) = (false, Some InvalidKeyError) /\
  (k <> EmptyString -> snd (Set_ cl k None) = Some InvalidValueError).
Proof.
  split; [| split].
  - rewrite (Set_refused cl EmptyString v InvalidKeyError); [reflexivity |].
    apply CheckKeyAndValue_empty.
  - rewrite (Get_refused cl EmptyString out InvalidKeyError); [reflexivity |].
    apply CheckKeyAndValue_empty.
  - intros Hk. rewrite (Set_refused cl k None InvalidValueError); [reflexivity |].
    apply CheckKeyAndValue_nil; exact Hk.
Qed.

(** C5.  Frame of a [Get] that finds nothing: whenever [Get] (with or
    without context) returns found = false, the destination holds what
    it held before the call. *)
Theorem Get_not_found_frame ctx cl k out :
  (fst (snd (GetWithContext ctx cl k out)) = false ->
   snd (fst (GetWithContext ctx cl k out)) = out) /\
  (fst (snd (Get cl k out)) = false -> snd (fst (Get cl k out)) = out).
Proof.
  assert (Hframe : forall ctx', fst (snd (GetWithContext ctx' cl k out)) = false ->
                                snd (fst (GetWithContext ctx' cl k out)) = out).
  { intros ctx'. unfold GetWithContext.
    destruct (util.CheckKeyAndValue k out); [reflexivity |].
    destruct (mgo.One (mgo.FindId (c cl) k) new_item) as [[col it'] err].
    destruct (decide (err = Some ErrNotFound)); [reflexivity |].
    destruct (decide (err <> None)); [reflexivity |].
    destruct (Unmarshal (V it') out) as [v' err']. simpl. discriminate. }
  split; [apply Hframe | apply (Hframe context.Background)].
Qed.

(** C6.  Delete idempotence, for every non-empty key and a server that
    answers: [Delete] of a key without entry returns nil and changes no
    entry; [Delete] of a key with an entry returns nil, and a [Get] of
    that key afterwards returns (false, nil). *)
Theorem delete_idempotent cl k d :
  k <> EmptyString ->
  (up cl -> entries cl !! k = None -> Delete cl k = (after_call cl, None)) /\
  (forall it, up cl -> entries cl !! k = Some it ->
     snd (Delete cl k) = None /\
     (up (fst (Delete cl k)) ->
      Get (fst (Delete cl k)) k (Some d) =
        (after_call (fst (Delete cl k)), Some d, (false, None)))).
Proof.
  intros Hk. split.
  - intros Hup Hnone. rewrite (Delete_answered cl k Hk Hup).
    unfold after_write, after_call. unfold entries in *.
    rewrite delete_id by exact Hnone. reflexivity.
  - intros it Hup _. rewrite (Delete_answered cl k Hk Hup). simpl.
    split; [reflexivity |]. intros Hup'.
    apply Get_missing; [apply CheckKeyAndValue_valid; exact Hk | exact Hup' |].
    unfold after_write, entries. simpl. apply lookup_delete_eq.
Qed.

(** C7.  Validation comes first: when validation refuses the arguments of
    [Set], [Get] or [Delete] (with or without context), the operation
    returns that very error, the client is the one it was, entries and
    pending replies of the server alike, so that no call reached the
    driver, and the destination of [Get] is untouched. *)
Theorem validation_first ctx cl k v out e :
  (util.CheckKeyAndValue k v = Some e ->
   SetWithContext ctx cl k v = (cl, Some e) /\ Set_ cl k v = (cl, Some e)) /\
  (util.CheckKeyAndValue k out = Some e ->
   GetWithContext ctx cl k out = (cl, out, (false, Some e)) /\
   Get cl k out = (cl, out, (false, Some e))) /\
  (util.CheckKey k = Some e ->
   DeleteWithContext ctx cl k = (cl, Some e) /\ Delete cl k = (cl, Some e)).
Proof.
  split; [| split]; intros Hcheck.
  - split; [| apply Set_refused; exact Hcheck].
    unfold SetWithContext. rewrite Hcheck. reflexivity.
  - split; [| apply Get_refused; exact Hcheck].
    unfold GetWithContext. rewrite Hcheck. reflexivity.
  - split; [| apply Delete_refused; exact Hcheck].
    unfold DeleteWithContext. rewrite Hcheck. reflexivity.
Qed.

(** C8.  [Get] returns (false, nil) only for a key without entry: the
    arguments then passed validation and the server answered the lookup.
    And when the entry of the key holds a payload that the codec refuses
    with an error, [Get] returns that error, with found = true: neither
    (false, nil) nor a nil error. *)
Theorem not_found_is_genuine cl k out :
  (snd (Get cl k out) = (false, None) ->
   util.CheckKeyAndValue k out = None /\ up cl /\ entries cl !! k = None) /\
  (forall it e,
     util.CheckKeyAndValue k out = None -> up cl -> entries cl !! k = Some it ->
     snd (Unmarshal (Codec := codec cl) (V it) out) = Some e ->
     snd (Get cl k out) = (true, Some e) /\ snd (Get cl k out) <> (false, None)).
Proof.
  split.
  - unfold Get, GetWithContext, up, entries.
    destruct (util.CheckKeyAndValue k out); [discriminate |].
    pose proof (One_not_found (c cl) k new_item) as Hnf.
    destruct (mgo.One (mgo.FindId (c cl) k) new_item) as [[col it'] err].
    simpl in Hnf.
    destruct (decide (err = Some ErrNotFound)) as [Heq | Hne].
    + intros _. destruct (Hnf Heq) as [Hup Hnone]. auto.
    + destruct (decide (err <> None)) as [Herr | Hnil].
      * simpl. intros Hres. exfalso. apply Herr. congruence.
      * destruct (Unmarshal (V it') out) as [v' err']. simpl. discriminate.
  - intros it e Hcheck Hup Hsome Hrefused.
    rewrite (Get_entry cl k out it Hcheck Hup Hsome). simpl. rewrite Hrefused.
    split; [reflexivity | discriminate].
Qed.

(** C9.  A [Get] of a key whose entry the codec fails to unmarshal into
    the destination returns found = true next to the error of the
    codec, and the destination holds whatever the codec left in it. *)
Theorem unmarshal_failure_is_found cl k d it e :
  k <> EmptyString -> up cl -> entries cl !! k = Some it ->
  snd (Unmarshal (Codec := codec cl) (V it) (Some d)) = Some e ->
  Get cl k (Some d) =
    (after_call cl, fst (Unmarshal (Codec := codec cl) (V it) (Some d)), (true, Some e)).
Proof.
  intros Hk Hup Hsome Hrefused.
  rewrite (Get_entry cl k (Some d) it (CheckKeyAndValue_valid k d Hk) Hup Hsome).
  rewrite Hrefused. reflexivity.
Qed.

(** C10.  The context is discarded: for every context, also a canceled
    one, [SetWithContext], [GetWithContext] and [DeleteWithContext] return
    what [Set], [Get] and [Delete] return and leave the same client. *)
Theorem context_is_discarded ctx cl k v out :
  SetWithContext ctx cl k v = Set_ cl k v /\
  GetWithContext ctx cl k out = Get cl k out /\
  DeleteWithContext ctx cl k = Delete cl k.
Proof. repeat split. Qed.

End Laws.

(** * The laws at work, and where two of them stop *)

Section Examples.

Import encoding mongodb contract fixtures.

(** C1 as stated does not hold of every key and every destination: the
    empty key has no entry in a fresh store, yet [Get] answers it with the
    invalid-key error; and a nil destination is answered with the
    invalid-value error. *)
Lemma absence_law_needs_valid_arguments :
  (entries fresh !! EmptyString = None /\
   snd (Get fresh EmptyString (Some "dest")) = (false, Some InvalidKeyError) /\
   snd (Get fresh EmptyString (Some "dest")) <> (false, None)) /\
  (entries fresh !! "missing" = None /\
   snd (Get fresh "missing" None) = (false, Some InvalidValueError) /\
   snd (Get fresh "missing" None) <> (false, None)).
Proof.
  repeat split; try reflexivity; vm_compute; discriminate.
Qed.

Lemma absence_law_witness :
  "missing" <> EmptyString /\ up fresh /\ entries fresh !! "missing" = None /\
  Get fresh "missing" (Some "dest") = (after_call fresh, Some "dest", (false, None)).
Proof.
  assert (Hk : "missing" <> EmptyString) by discriminate.
  assert (Hup : up fresh) by reflexivity.
  assert (Hnone : entries fresh !! "missing" = None) by reflexivity.
  split; [exact Hk | split; [exact Hup | split; [exact Hnone |]]].
  exact (absence_law fresh "missing" "dest" Hk Hup Hnone).
Defined.

Lemma overwrite_law_witness :
  snd (Set_ (fst (Set_ fresh "a" (Some "one"))) "a" (Some "two")) = None /\
  up (fst (Set_ (fst (Set_ fresh "a" (Some "one"))) "a" (Some "two"))) /\
  Unmarshal (fst (Marshal (Some "two"))) (Some "dest") = (Some "two", None) /\
  snd (Get (fst (Set_ (fst (Set_ fresh "a" (Some "one"))) "a" (Some "two"))) "a" (Some "dest"))
    = (true, None) /\
  snd (fst (Get (fst (Set_ (fst (Set_ fresh "a" (Some "one"))) "a" (Some "two"))) "a"
              (Some "dest")))
    = Some "two".
Proof.
  assert (Hset : snd (Set_ (fst (Set_ fresh "a" (Some "one"))) "a" (Some "two")) = None)
    by reflexivity.
  assert (Hup : up (fst (Set_ (fst (Set_ fresh "a" (Some "one"))) "a" (Some "two"))))
    by reflexivity.
  assert (Hround : Unmarshal (Codec := codec fresh)
                     (fst (Marshal (Codec := codec fresh) (Some "two"))) (Some "dest")
                   = (Some "two", None)) by reflexivity.
  destruct (overwrite_law fresh "a" (Some "one") (Some "two") "dest" Hset Hup Hround)
    as [Hget _].
  split; [exact Hset | split; [exact Hup | split; [exact Hround |]]].
  rewrite Hget. split; reflexivity.
Defined.

(** C3 as stated does not hold of every key: [Set] of a nil value under
    the empty key fails with the invalid-key error, since the key is
    checked first. *)
Lemma validation_law_checks_key_first :
  snd (Set_ fresh EmptyString None) = Some InvalidKeyError /\
  snd (Set_ fresh EmptyString None) <> Some InvalidValueError.
Proof.
  split; [reflexivity | vm_compute; discriminate].
Qed.

Lemma validation_law_witness :
  "a" <> EmptyString /\
  snd (Set_ fresh EmptyString (Some "v")) = Some InvalidKeyError /\
  snd (Get fresh EmptyString (Some "dest")) = (false, Some InvalidKeyError) /\
  snd (Set_ fresh "a" None) = Some InvalidValueError.
Proof.
  assert (Hk : "a" <> EmptyString) by discriminate.
  destruct (validation_law fresh "a" (Some "v") (Some "dest")) as (Hset & Hget & Hnil).
  split; [exact Hk | split; [exact Hset | split; [exact Hget | exact (Hnil Hk)]]].
Defined.

Lemma Get_not_found_frame_witness :
  fst (snd (Get fresh "missing" (Some "dest"))) = false /\
  snd (fst (Get fresh "missing" (Some "dest"))) = Some "dest" /\
  snd (fst (GetWithContext (context.WithCancel context.Background true)
              fresh "missing" (Some "dest"))) = Some "dest".
Proof.
  assert (Hfalse : fst (snd (Get fresh "missing" (Some "dest"))) = false) by reflexivity.
  destruct (Get_not_found_frame (context.WithCancel context.Background true)
              fresh "missing" (Some "dest")) as [Hctx Hplain].
  split; [exact Hfalse | split; [exact (Hplain Hfalse) | exact (Hctx Hfalse)]].
Defined.

Lemma delete_idempotent_witness :
  "a" <> EmptyString /\
  Delete fresh "a" = (after_call fresh, None) /\
  snd (Delete (fst (Set_ fresh "a" (Some "one"))) "a") = None /\
  snd (Get (fst (Delete (fst (Set_ fresh "a" (Some "one"))) "a")) "a" (Some "dest"))
    = (false, None).
Proof.
  assert (Hk : "a" <> EmptyString) by discriminate.
  destruct (delete_idempotent fresh "a" "dest" Hk) as [Habsent _].
  destruct (delete_idempotent (fst (Set_ fresh "a" (Some "one"))) "a" "dest" Hk)
    as [_ Hpresent].
  assert (Hup : up (fst (Set_ fresh "a" (Some "one")))) by reflexivity.
  assert (Hsome : entries (fst (Set_ fresh "a" (Some "one"))) !! "a"
                  = Some {| K := "a"; V := fixtures.tag :: list_byte_of_string "one" |})
    by (vm_compute; reflexivity).
  destruct (Hpresent _ Hup Hsome) as [Hnil Hget].
  assert (Hup' : up (fst (Delete (fst (Set_ fresh "a" (Some "one"))) "a"))) by reflexivity.
  split; [exact Hk | split; [| split; [exact Hnil |]]].
  - apply Habsent; reflexivity.
  - rewrite (Hget Hup'). reflexivity.
Defined.

Lemma validation_first_witness :
  util.CheckKeyAndValue (A := string) EmptyString None = Some InvalidKeyError /\
  util.CheckKey EmptyString = Some InvalidKeyError /\
  Set_ flaky EmptyString None = (flaky, Some InvalidKeyError) /\
  Get flaky EmptyString None = (flaky, None, (false, Some InvalidKeyError)) /\
  Delete flaky EmptyString = (flaky, Some InvalidKeyError).
Proof.
  assert (Hkv : util.CheckKeyAndValue (A := string) EmptyString None = Some InvalidKeyError)
    by reflexivity.
  assert (Hkey : util.CheckKey EmptyString = Some InvalidKeyError) by reflexivity.
  destruct (validation_first context.Background flaky EmptyString None None InvalidKeyError)
    as (Hset & Hget & Hdel).
  split; [exact Hkv | split; [exact Hkey | split; [| split]]].
  - exact (proj2 (Hset Hkv)).
  - exact (proj2 (Hget Hkv)).
  - exact (proj2 (Hdel Hkey)).
Defined.

Lemma not_found_is_genuine_witness :
  snd (Get fresh "missing" (Some "dest")) = (false, None) /\
  entries fresh !! "missing" = None /\
  snd (Unmarshal [Byte.x00] (Some "dest")) = Some (DeserializationError "unknown tag") /\
  snd (Get foreign "a" (Some "dest")) = (true, Some (DeserializationError "unknown tag")).
Proof.
  assert (Hres : snd (Get fresh "missing" (Some "dest")) = (false, None)) by reflexivity.
  destruct (not_found_is_genuine fresh "missing" (Some "dest")) as [Honly _].
  destruct (Honly Hres) as (_ & _ & Hnone).
  destruct (not_found_is_genuine foreign "a" (Some "dest")) as [_ Hrefused].
  assert (Hcheck : util.CheckKeyAndValue "a" (Some "dest") = None) by reflexivity.
  assert (Hup : up foreign) by reflexivity.
  assert (Hsome : entries foreign !! "a" = Some {| K := "a"; V := [Byte.x00] |})
    by (vm_compute; reflexivity).
  assert (Herr : snd (Unmarshal (Codec := codec foreign) [Byte.x00] (Some "dest"))
                 = Some (DeserializationError "unknown tag")) by reflexivity.
  destruct (Hrefused _ _ Hcheck Hup Hsome Herr) as [Hfound _].
  split; [exact Hres | split; [exact Hnone | split; [exact Herr | exact Hfound]]].
Defined.

(** The destination held "dest" before the call and holds the empty
    string after it: the codec had written to it before it failed. *)
Lemma unmarshal_failure_is_found_witness :
  "a" <> EmptyString /\ up foreign /\
  entries foreign !! "a" = Some {| K := "a"; V := [Byte.x00] |} /\
  Get foreign "a" (Some "dest")
    = (after_call foreign, Some EmptyString, (true, Some (DeserializationError "unknown tag"))).
Proof.
  assert (Hk : "a" <> EmptyString) by discriminate.
  assert (Hup : up foreign) by reflexivity.
  assert (Hsome : entries foreign !! "a" = Some {| K := "a"; V := [Byte.x00] |})
    by (vm_compute; reflexivity).
  assert (Herr : snd (Unmarshal (Codec := codec foreign) [Byte.x00] (Some "dest"))
                 = Some (DeserializationError "unknown tag")) by reflexivity.
  split; [exact Hk | split; [exact Hup | split; [exact Hsome |]]].
  exact (unmarshal_failure_is_found foreign "a" "dest" _ _ Hk Hup Hsome Herr).
Defined.

End Examples.

(** * Further properties of the client *)

(** Every way an operation can go. *)

Section Cases.

Import encoding mongodb contract.

Context {Value : Type}.

Implicit Types (cl : Client Value) (k : string) (v out : any Value) (e : error).

Lemma Set_failed cl k v msg :
  util.CheckKeyAndValue k v = None ->
  snd (Marshal (Codec := codec cl) v) = None ->
  mgo.next_fault (c cl) = Some msg ->
  Set_ cl k v = (after_call cl, Some (EngineError msg)).
Proof.
  intros Hcheck Hmarshal Hdown. unfold Set_, SetWithContext. rewrite Hcheck.
  destruct (Marshal v) as [data err]. simpl in Hmarshal. subst err.
  unfold mgo.UpsertId. rewrite Hdown. reflexivity.
Qed.

Lemma Set_unmarshalled cl k v e :
  util.CheckKeyAndValue k v = None ->
  snd (Marshal (Codec := codec cl) v) = Some e ->
  Set_ cl k v = (cl, Some e).
Proof.
  intros Hcheck Hmarshal. unfold Set_, SetWithContext. rewrite Hcheck.
  destruct (Marshal v) as [data err]. simpl in Hmarshal. subst err. reflexivity.
Qed.

Lemma Set_cases cl k v :
  (exists e, Set_ cl k v = (cl, Some e)) \/
  (exists msg, Set_ cl k v = (after_call cl, Some (EngineError msg))) \/
  (util.CheckKeyAndValue k v = None /\
   Set_ cl k v =
     (after_write cl (<[k := {| K := k; V := fst (Marshal (Codec := codec cl) v) |}]> (entries cl)),
      None)).
Proof.
  destruct (util.CheckKeyAndValue k v) as [e |] eqn:Hcheck.
  { left. exists e. apply Set_refused. exact Hcheck. }
  destruct (snd (Marshal (Codec := codec cl) v)) as [e |] eqn:Hmarshal.
  { left. exists e. apply Set_unmarshalled; assumption. }
  destruct (mgo.next_fault (c cl)) as [msg |] eqn:Hlink.
  { right. left. exists msg. apply Set_failed; assumption. }
  right. right. split; [reflexivity |]. apply Set_stored; assumption.
Qed.

Lemma Delete_failed cl k msg :
  util.CheckKey k = None -> mgo.next_fault (c cl) = Some msg ->
  Delete cl k = (after_call cl, Some (EngineError msg)).
Proof.
  intros Hcheck Hdown. unfold Delete, DeleteWithContext. rewrite Hcheck.
  unfold mgo.RemoveId. rewrite Hdown. reflexivity.
Qed.

Lemma Delete_cases cl k :
  (exists e, util.CheckKey k = Some e /\ Delete cl k = (cl, Some e)) \/
  (exists msg, util.CheckKey k = None /\ mgo.next_fault (c cl) = Some msg /\
               Delete cl k = (after_call cl, Some (EngineError msg))) \/
  (util.CheckKey k = None /\ up cl /\
   Delete cl k = (after_write cl (delete k (entries cl)), None)).
Proof.
  destruct (util.CheckKey k) as [e |] eqn:Hcheck.
  { left. exists e. split; [reflexivity |]. apply Delete_refused. exact Hcheck. }
  destruct (mgo.next_fault (c cl)) as [msg |] eqn:Hlink.
  { right. left. exists msg. repeat split; try assumption. apply Delete_failed; assumption. }
  right. right. repeat split; try assumption.
  apply Delete_answered; [apply CheckKey_passes; exact Hcheck | exact Hlink].
Qed.

Lemma Get_cases cl k out :
  (exists e, util.CheckKeyAndValue k out = Some e /\ Get cl k out = (cl, out, (false, Some e))) \/
  (exists msg, util.CheckKeyAndValue k out = None /\ mgo.next_fault (c cl) = Some msg /\
               Get cl k out = (after_call cl, out, (false, Some (EngineError msg)))) \/
  (util.CheckKeyAndValue k out = None /\ up cl /\ entries cl !! k = None /\
   Get cl k out = (after_call cl, out, (false, None))) \/
  (exists it, util.CheckKeyAndValue k out = None /\ up cl /\ entries cl !! k = Some it /\
              Get cl k out =
                (after_call cl, fst (Unmarshal (Codec := codec cl) (V it) out),
                 (true, snd (Unmarshal (Codec := codec cl) (V it) out)))).
Proof.
  destruct (util.CheckKeyAndValue k out) as [e |] eqn:Hcheck.
  { left. exists e. split; [reflexivity |]. apply Get_refused. exact Hcheck. }
  destruct (mgo.next_fault (c cl)) as [msg |] eqn:Hlink.
  { right. left. exists msg. repeat split; try assumption. apply Get_failed; assumption. }
  destruct (entries cl !! k) as [it |] eqn:Hentry.
  - right. right. right. exists it. repeat split; try assumption.
    apply Get_entry; assumption.
  - right. right. left. repeat split; try assumption. apply Get_missing; assumption.
Qed.

End Cases.

Section Properties.

Import encoding mongodb contract invariant.

Context {Value : Type}.

Implicit Types (cl : Client Value) (k : string) (v out : any Value)
  (d : Value) (e : error) (it : item).

(** X1.  [Set] returns nil exactly when its arguments pass validation,
    the codec marshals the value without error and the server answers the
    upsert. *)
Theorem Set_nil_iff cl k v :
  snd (Set_ cl k v) = None <->
  util.CheckKeyAndValue k v = None /\
  snd (Marshal (Codec := codec cl) v) = None /\
  up cl.
Proof.
  split.
  - apply Set_succeeded.
  - intros (Hcheck & Hmarshal & Hup). rewrite (Set_stored cl k v Hcheck Hmarshal Hup).
    reflexivity.
Qed.


(** X3.  When the codec fails to marshal a value that passed validation,
    [Set] returns the error of the codec as it is and the client is the
    one it was, pending replies included: the driver was not called. *)
Theorem Set_marshal_error cl k v e :
  util.CheckKeyAndValue k v = None ->
  snd (Marshal (Codec := codec cl) v) = Some e ->
  Set_ cl k v = (cl, Some e).
Proof. apply Set_unmarshalled. Qed.

(** X4.  A [Set] under one key leaves the entry of every other key as it
    was, whatever [Set] returns. *)
Theorem Set_frame cl k k' v :
  k' <> k -> entries (fst (Set_ cl k v)) !! k' = entries cl !! k'.
Proof.
  intros Hne.
  destruct (Set_entries cl k v) as [Hsame | Hnew]; [rewrite Hsame; reflexivity |].
  rewrite Hnew. apply lookup_insert_ne. auto.
Qed.

(** X5.  The store adds nothing to the codec: after a [Set] that returned
    nil, the entry of the key holds the key and the bytes that [Marshal]
    produced, and a [Get] that the server answers returns found = true
    with exactly what [Unmarshal] makes of those bytes, error and
    destination. *)
Theorem Get_after_Set cl k v d :
  snd (Set_ cl k v) = None ->
  up (fst (Set_ cl k v)) ->
  entries (fst (Set_ cl k v)) !! k
    = Some {| K := k; V := fst (Marshal (Codec := codec cl) v) |} /\
  Get (fst (Set_ cl k v)) k (Some d) =
    (after_call (fst (Set_ cl k v)),
     fst (Unmarshal (Codec := codec cl) (fst (Marshal (Codec := codec cl) v)) (Some d)),
     (true, snd (Unmarshal (Codec := codec cl) (fst (Marshal (Codec := codec cl) v)) (Some d)))).
Proof.
  intros Hset Hup.
  destruct (Set_succeeded cl k v Hset) as (Hcheck & Hmarshal & Hup0).
  destruct (CheckKeyAndValue_passes k v Hcheck) as [Hk _].
  assert (Hentry : entries (fst (Set_ cl k v)) !! k
                   = Some {| K := k; V := fst (Marshal (Codec := codec cl) v) |}).
  { rewrite (Set_stored cl k v Hcheck Hmarshal Hup0). unfold after_write, entries. simpl.
    apply lookup_insert_eq. }
  split; [exact Hentry |].
  rewrite (Get_entry _ k (Some d) _ (CheckKeyAndValue_valid k d Hk) Hup Hentry).
  simpl. rewrite Set_codec. reflexivity.
Qed.

(** X6.  Writes under different keys commute: when the two [Set]s return
    nil in either order, both orders leave the same entries. *)
Theorem Set_commute cl k1 k2 v1 v2 :
  k1 <> k2 ->
  snd (Set_ cl k1 v1) = None ->
  snd (Set_ (fst (Set_ cl k1 v1)) k2 v2) = None ->
  snd (Set_ cl k2 v2) = None ->
  snd (Set_ (fst (Set_ cl k2 v2)) k1 v1) = None ->
  entries (fst (Set_ (fst (Set_ cl k1 v1)) k2 v2)) =
  entries (fst (Set_ (fst (Set_ cl k2 v2)) k1 v1)).
Proof.
  intros Hne H1 H12 H2 H21.
  assert (Hstep : forall s k v, snd (Set_ s k v) = None ->
            entries (fst (Set_ s k v))
            = <[k := {| K := k; V := fst (Marshal (Codec := codec s) v) |}]> (entries s)).
  { intros s k v Hnil. destruct (Set_succeeded s k v Hnil) as (Hc & Hm & Hu).
    rewrite (Set_stored s k v Hc Hm Hu). reflexivity. }
  rewrite (Hstep _ _ _ H12), (Hstep _ _ _ H21), (Hstep _ _ _ H1), (Hstep _ _ _ H2).
  rewrite !Set_codec. apply insert_insert_ne. auto.
Qed.

(** X7.  [Get] never changes the store: whatever it returns, the entries
    and the codec of the client are the ones before the call. *)
Theorem Get_read_only cl k out :
  entries (fst (fst (Get cl k out))) = entries cl /\
  codec (fst (fst (Get cl k out))) = codec cl.
Proof.
  destruct (Get_cases cl k out)
    as [(e & _ & Hres) | [(msg & _ & _ & Hres) | [(_ & _ & _ & Hres) | (it & _ & _ & _ & Hres)]]];
    rewrite Hres; split; reflexivity.
Qed.

(** X8.  [Get] returns found = true exactly when its arguments pass
    validation, the server answers the lookup and the key has an entry;
    whether the codec then fails plays no part. *)
Theorem Get_found_iff cl k out :
  fst (snd (Get cl k out)) = true <->
  util.CheckKeyAndValue k out = None /\ up cl /\ exists it, entries cl !! k = Some it.
Proof.
  destruct (Get_cases cl k out)
    as [(e & Hc & Hres) | [(msg & Hc & Hl & Hres) | [(Hc & Hl & Hn & Hres) | (it & Hc & Hl & Hs & Hres)]]];
    rewrite Hres; simpl; split.
  - discriminate.
  - intros (Hok & _). congruence.
  - discriminate.
  - intros (_ & Hup & _). unfold up in Hup. congruence.
  - discriminate.
  - intros (_ & _ & it & Hit). congruence.
  - intros _. eauto.
  - reflexivity.
Qed.

(** X9.  The not-found error of the driver stays inside the client:
    [Delete] never returns it, and [Get] never returns it next to
    found = false. *)
Theorem ErrNotFound_is_absorbed cl k out :
  snd (Delete cl k) <> Some ErrNotFound /\
  (fst (snd (Get cl k out)) = false -> snd (snd (Get cl k out)) <> Some ErrNotFound).
Proof.
  split.
  - unfold Delete, DeleteWithContext, util.CheckKey.
    destruct (decide (k = EmptyString)); [discriminate |].
    destruct (mgo.RemoveId (c cl) k) as [col err].
    destruct (decide (err <> Some ErrNotFound)) as [Hne | Heq]; simpl; [exact Hne | discriminate].
  - unfold Get, GetWithContext.
    destruct (util.CheckKeyAndValue k out) as [e |] eqn:Hcheck.
    { simpl. intros _ Heq. injection Heq as ->.
      unfold util.CheckKeyAndValue, util.CheckKey in Hcheck.
      destruct (decide (k = EmptyString)); [discriminate |].
      destruct out; discriminate. }
    destruct (mgo.One (mgo.FindId (c cl) k) new_item) as [[col it'] err].
    destruct (decide (err = Some ErrNotFound)); [simpl; discriminate |].
    destruct (decide (err <> None)); [simpl; auto |].
    destruct (Unmarshal (V it') out) as [v' err']. simpl. discriminate.
Qed.

(** X10.  [Delete] returns nil exactly when the key passes validation
    and the server answers the removal, whether the key had an entry or
    not; the key has no entry afterwards. *)
Theorem Delete_nil_iff cl k :
  (snd (Delete cl k) = None <-> util.CheckKey k = None /\ up cl) /\
  (snd (Delete cl k) = None -> entries (fst (Delete cl k)) !! k = None).
Proof.
  destruct (Delete_cases cl k)
    as [(e & Hc & Hres) | [(msg & Hc & Hl & Hres) | (Hc & Hl & Hres)]];
    rewrite Hres; simpl; (split; [split |]); try discriminate.
  - intros (Hok & _). congruence.
  - intros (_ & Hup). unfold up in Hup. congruence.
  - auto.
  - reflexivity.
  - intros _. unfold after_write, entries. simpl. apply lookup_delete_eq.
Qed.



(** X13.  [Delete] undoes [Set]: on a store without entry for the key,
    a [Set] that returns nil followed by a [Delete] that the server
    answers leaves the entries as they were before the two calls. *)
Theorem Delete_undoes_Set cl k v :
  entries cl !! k = None ->
  snd (Set_ cl k v) = None ->
  up (fst (Set_ cl k v)) ->
  snd (Delete (fst (Set_ cl k v)) k) = None /\
  entries (fst (Delete (fst (Set_ cl k v)) k)) = entries cl.
Proof.
  intros Hnone Hset Hup.
  destruct (Set_succeeded cl k v Hset) as (Hcheck & Hmarshal & Hup0).
  destruct (CheckKeyAndValue_passes k v Hcheck) as [Hk _].
  rewrite (Delete_answered _ k Hk Hup). simpl. split; [reflexivity |].
  rewrite (Set_stored cl k v Hcheck Hmarshal Hup0). unfold after_write, entries. simpl.
  apply delete_insert_id. exact Hnone.
Qed.

(** X14.  Every document sits under its own [_id]: if the [K] of each
    entry is its key before a [Set], a [Get] or a [Delete], it is so
    afterwards. *)
Theorem well_keyed_preserved cl k v out :
  well_keyed cl ->
  well_keyed (fst (Set_ cl k v)) /\
  well_keyed (fst (fst (Get cl k out))) /\
  well_keyed (fst (Delete cl k)).
Proof.
  intros Hwk. split; [| split]; intros id it.
  - destruct (Set_entries cl k v) as [Hsame | Hnew].
    + rewrite Hsame. apply Hwk.
    + rewrite Hnew. rewrite lookup_insert_Some.
      intros [[<- <-] | [_ Hold]]; [reflexivity | apply (Hwk id it Hold)].
  - destruct (Get_cases cl k out)
      as [(e & _ & Hres) | [(msg & _ & _ & Hres) | [(_ & _ & _ & Hres) | (it' & _ & _ & _ & Hres)]]];
      rewrite Hres; simpl; apply Hwk.
  - destruct (Delete_cases cl k)
      as [(e & _ & Hres) | [(msg & _ & _ & Hres) | (_ & _ & Hres)]];
      rewrite Hres; simpl; try apply Hwk.
    unfold after_write, entries. simpl. rewrite lookup_delete_Some.
    intros [_ Hold]. apply (Hwk id it Hold).
Qed.

(** X15.  An operation calls the server at most once: after [Set], [Get]
    or [Delete] the replies to come are those before the call, or those
    with the first one consumed. *)
Theorem at_most_one_call cl k v out :
  (mgo.replies (c (fst (Set_ cl k v))) = mgo.replies (c cl) \/
   mgo.replies (c (fst (Set_ cl k v))) = tail (mgo.replies (c cl))) /\
  (mgo.replies (c (fst (fst (Get cl k out)))) = mgo.replies (c cl) \/
   mgo.replies (c (fst (fst (Get cl k out)))) = tail (mgo.replies (c cl))) /\
  (mgo.replies (c (fst (Delete cl k))) = mgo.replies (c cl) \/
   mgo.replies (c (fst (Delete cl k))) = tail (mgo.replies (c cl))).
Proof.
  split; [| split].
  - destruct (Set_cases cl k v) as [[e Hres] | [[msg Hres] | [_ Hres]]];
      rewrite Hres; simpl; auto.
  - destruct (Get_cases cl k out)
      as [(e & _ & Hres) | [(msg & _ & _ & Hres) | [(_ & _ & _ & Hres) | (it & _ & _ & _ & Hres)]]];
      rewrite Hres; simpl; auto.
  - destruct (Delete_cases cl k)
      as [(e & _ & Hres) | [(msg & _ & _ & Hres) | (_ & _ & Hres)]];
      rewrite Hres; simpl; auto.
Qed.

End Properties.

(** * Construction of the client *)

Section Construction.

Import encoding mongodb.

Context {Value : Type}.

Variable JSON : Codec Value.
Variable Session : Type.
Variable DialWithTimeout : string -> Z -> Session * option error.
Variable DB_C : Session -> string -> string -> mgo.Collection item.

Abbreviation NewClient := (mongodb.NewClient JSON Session DialWithTimeout DB_C).

(** Unfolds [NewClient] and goes through the tests of the options. *)
Ltac through_defaults :=
  unfold mongodb.NewClient;
  cbn [ConnectionString DatabaseName CollectionName Codec_ DefaultOptions];
  repeat (case_decide;
          cbn [ConnectionString DatabaseName CollectionName Codec_ DefaultOptions];
          try discriminate; try contradiction).

Implicit Types (conn db coll : string) (cd : any (Codec Value)) (e : error).

(** X16.  An option left empty means its default: [NewClient] does with
    an empty connection string what it does with "localhost", with an
    empty database name what it does with "gokv", with an empty collection
    name what it does with "item", and with a nil codec what it does with
    the JSON codec, whatever the other options are. *)
Theorem NewClient_defaults conn db coll cd :
  NewClient {| ConnectionString := EmptyString; DatabaseName := db;
               CollectionName := coll; Codec_ := cd |}
  = NewClient {| ConnectionString := "localhost"; DatabaseName := db;
                 CollectionName := coll; Codec_ := cd |} /\
  NewClient {| ConnectionString := conn; DatabaseName := EmptyString;
               CollectionName := coll; Codec_ := cd |}
  = NewClient {| ConnectionString := conn; DatabaseName := "gokv";
                 CollectionName := coll; Codec_ := cd |} /\
  NewClient {| ConnectionString := conn; DatabaseName := db;
               CollectionName := EmptyString; Codec_ := cd |}
  = NewClient {| ConnectionString := conn; DatabaseName := db;
                 CollectionName := "item"; Codec_ := cd |} /\
  NewClient {| ConnectionString := conn; DatabaseName := db;
               CollectionName := coll; Codec_ := None |}
  = NewClient {| ConnectionString := conn; DatabaseName := db;
                 CollectionName := coll; Codec_ := Some JSON |}.
Proof.
  repeat split; through_defaults; destruct cd; reflexivity.
Qed.

(** X17.  [NewClient] fails exactly when dialling fails, and with the
    error of the dial as it is; the address dialled is the connection
    string of the options, or "localhost" when that is empty, and the
    timeout is two seconds. *)
Theorem NewClient_fails_iff (options : Options Value) e :
  NewClient options = inr e <->
  snd (DialWithTimeout
         (if decide (ConnectionString options = EmptyString) then "localhost"
          else ConnectionString options)
         2000000000%Z) = Some e.
Proof.
  destruct options as [conn db coll cd]. through_defaults;
    destruct cd; cbn [ConnectionString DatabaseName CollectionName Codec_ DefaultOptions];
    change (2 * time.Second)%Z with 2000000000%Z;
    match goal with
    | |- context [DialWithTimeout ?a 2000000000%Z] =>
        destruct (DialWithTimeout a 2000000000%Z) as [s [e' |]]
    end; simpl; split; congruence.
Qed.

(** X18.  Options that are set are honoured: with a connection string, a
    database name, a collection name and a codec given, a [NewClient]
    whose dial succeeds returns the client of that codec on the
    collection of that name in the database of that name, reached
    through the session dialled at that address. *)
Theorem NewClient_explicit conn db coll (codec0 : Codec Value) :
  conn <> EmptyString -> db <> EmptyString -> coll <> EmptyString ->
  snd (DialWithTimeout conn 2000000000%Z) = None ->
  NewClient {| ConnectionString := conn; DatabaseName := db;
               CollectionName := coll; Codec_ := Some codec0 |}
  = inl {| c := DB_C (fst (DialWithTimeout conn 2000000000%Z)) db coll; codec := codec0 |}.
Proof.
  intros Hconn Hdb Hcoll Hdial. through_defaults.
  change (2 * time.Second)%Z with 2000000000%Z.
  destruct (DialWithTimeout conn 2000000000%Z) as [s err]. simpl in *. subst err.
  reflexivity.
Qed.

End Construction.

(** * The further properties at work *)

Section MoreExamples.

Import encoding mongodb contract invariant fixtures samples.

Lemma Set_nil_iff_witness :
  util.CheckKeyAndValue "a" (Some "one") = None /\
  snd (Marshal (Codec := codec fresh) (Some "one")) = None /\
  up fresh /\
  snd (Set_ fresh "a" (Some "one")) = None.
Proof.
  assert (Hcheck : util.CheckKeyAndValue "a" (Some "one") = None) by reflexivity.
  assert (Hmarshal : snd (Marshal (Codec := codec fresh) (Some "one")) = None) by reflexivity.
  assert (Hup : up fresh) by reflexivity.
  split; [exact Hcheck | split; [exact Hmarshal | split; [exact Hup |]]].
  exact (proj2 (Set_nil_iff fresh "a" (Some "one")) (conj Hcheck (conj Hmarshal Hup))).
Defined.


Lemma Set_marshal_error_witness :
  util.CheckKeyAndValue "a" (Some EmptyString) = None /\
  snd (Marshal (Codec := codec picky) (Some EmptyString))
    = Some (SerializationError "empty string") /\
  Set_ picky "a" (Some EmptyString) = (picky, Some (SerializationError "empty string")).
Proof.
  assert (Hcheck : util.CheckKeyAndValue "a" (Some EmptyString) = None) by reflexivity.
  assert (Hmarshal : snd (Marshal (Codec := codec picky) (Some EmptyString))
                     = Some (SerializationError "empty string")) by reflexivity.
  split; [exact Hcheck | split; [exact Hmarshal |]].
  exact (Set_marshal_error picky "a" (Some EmptyString) _ Hcheck Hmarshal).
Defined.

Lemma Set_frame_witness :
  "b" <> "a" /\
  entries (fst (Set_ stocked "a" (Some "new"))) !! "b" = entries stocked !! "b".
Proof.
  assert (Hne : "b" <> "a") by discriminate.
  split; [exact Hne |].
  exact (Set_frame stocked "a" "b" (Some "new") Hne).
Defined.

Lemma Get_after_Set_witness :
  snd (Set_ fresh "a" (Some "one")) = None /\
  up (fst (Set_ fresh "a" (Some "one"))) /\
  snd (Get (fst (Set_ fresh "a" (Some "one"))) "a" (Some "dest")) = (true, None) /\
  snd (fst (Get (fst (Set_ fresh "a" (Some "one"))) "a" (Some "dest"))) = Some "one".
Proof.
  assert (Hset : snd (Set_ fresh "a" (Some "one")) = None) by reflexivity.
  assert (Hup : up (fst (Set_ fresh "a" (Some "one")))) by reflexivity.
  destruct (Get_after_Set fresh "a" (Some "one") "dest" Hset Hup) as [_ Hget].
  split; [exact Hset | split; [exact Hup |]].
  rewrite Hget. split; reflexivity.
Defined.

Lemma Set_commute_witness :
  "a" <> "b" /\
  snd (Set_ (fst (Set_ fresh "a" (Some "one"))) "b" (Some "two")) = None /\
  snd (Set_ (fst (Set_ fresh "b" (Some "two"))) "a" (Some "one")) = None /\
  entries (fst (Set_ (fst (Set_ fresh "a" (Some "one"))) "b" (Some "two"))) =
  entries (fst (Set_ (fst (Set_ fresh "b" (Some "two"))) "a" (Some "one"))).
Proof.
  assert (Hne : "a" <> "b") by discriminate.
  assert (H1 : snd (Set_ fresh "a" (Some "one")) = None) by reflexivity.
  assert (H12 : snd (Set_ (fst (Set_ fresh "a" (Some "one"))) "b" (Some "two")) = None)
    by reflexivity.
  assert (H2 : snd (Set_ fresh "b" (Some "two")) = None) by reflexivity.
  assert (H21 : snd (Set_ (fst (Set_ fresh "b" (Some "two"))) "a" (Some "one")) = None)
    by reflexivity.
  split; [exact Hne | split; [exact H12 | split; [exact H21 |]]].
  exact (Set_commute fresh "a" "b" (Some "one") (Some "two") Hne H1 H12 H2 H21).
Defined.

(** The entry under "a" is found although the codec refuses its
    payload. *)
Lemma Get_found_iff_witness :
  util.CheckKeyAndValue "a" (Some "dest") = None /\ up foreign /\
  entries foreign !! "a" = Some {| K := "a"; V := [Byte.x00] |} /\
  fst (snd (Get foreign "a" (Some "dest"))) = true.
Proof.
  assert (Hcheck : util.CheckKeyAndValue "a" (Some "dest") = None) by reflexivity.
  assert (Hup : up foreign) by reflexivity.
  assert (Hsome : entries foreign !! "a" = Some {| K := "a"; V := [Byte.x00] |})
    by (vm_compute; reflexivity).
  split; [exact Hcheck | split; [exact Hup | split; [exact Hsome |]]].
  exact (proj2 (Get_found_iff foreign "a" (Some "dest"))
           (conj Hcheck (conj Hup (ex_intro _ _ Hsome)))).
Defined.

Lemma ErrNotFound_is_absorbed_witness :
  snd (Delete fresh "missing") <> Some ErrNotFound /\
  fst (snd (Get fresh "missing" (Some "dest"))) = false /\
  snd (snd (Get fresh "missing" (Some "dest"))) <> Some ErrNotFound.
Proof.
  assert (Hfalse : fst (snd (Get fresh "missing" (Some "dest"))) = false) by reflexivity.
  destruct (ErrNotFound_is_absorbed fresh "missing" (Some "dest")) as [Hdel Hget].
  split; [exact Hdel | split; [exact Hfalse | exact (Hget Hfalse)]].
Defined.

Lemma Delete_nil_iff_witness :
  util.CheckKey "a" = None /\ up stocked /\
  snd (Delete stocked "a") = None /\
  entries (fst (Delete stocked "a")) !! "a" = None.
Proof.
  assert (Hcheck : util.CheckKey "a" = None) by reflexivity.
  assert (Hup : up stocked) by reflexivity.
  destruct (Delete_nil_iff stocked "a") as [Hiff Hgone].
  assert (Hnil : snd (Delete stocked "a") = None) by exact (proj2 Hiff (conj Hcheck Hup)).
  split; [exact Hcheck | split; [exact Hup | split; [exact Hnil | exact (Hgone Hnil)]]].
Defined.



Lemma Delete_undoes_Set_witness :
  entries fresh !! "a" = None /\
  snd (Set_ fresh "a" (Some "one")) = None /\
  up (fst (Set_ fresh "a" (Some "one"))) /\
  snd (Delete (fst (Set_ fresh "a" (Some "one"))) "a") = None /\
  entries (fst (Delete (fst (Set_ fresh "a" (Some "one"))) "a")) = entries fresh.
Proof.
  assert (Hnone : entries fresh !! "a" = None) by reflexivity.
  assert (Hset : snd (Set_ fresh "a" (Some "one")) = None) by reflexivity.
  assert (Hup : up (fst (Set_ fresh "a" (Some "one")))) by reflexivity.
  split; [exact Hnone | split; [exact Hset | split; [exact Hup |]]].
  exact (Delete_undoes_Set fresh "a" (Some "one") Hnone Hset Hup).
Defined.

Lemma well_keyed_preserved_witness :
  well_keyed stocked /\
  well_keyed (fst (Set_ stocked "c" (Some "three"))) /\
  well_keyed (fst (fst (Get stocked "c" (Some "dest")))) /\
  well_keyed (fst (Delete stocked "c")).
Proof.
  assert (Hwk : well_keyed stocked).
  { intros id it Hentry. unfold entries, stocked in Hentry. simpl in Hentry.
    apply lookup_insert_Some in Hentry as [[<- <-] | [_ Hentry]]; [reflexivity |].
    apply lookup_singleton_Some in Hentry as [<- <-]. reflexivity. }
  split; [exact Hwk |].
  exact (well_keyed_preserved stocked "c" (Some "three") (Some "dest") Hwk).
Defined.

Lemma NewClient_fails_iff_witness :
  snd (dial "mongodb.example" 2000000000%Z) = Some (EngineError "no reachable servers") /\
  NewClient string_codec string dial collection_of
    {| ConnectionString := "mongodb.example"; DatabaseName := EmptyString;
       CollectionName := EmptyString; Codec_ := None |}
  = inr (EngineError "no reachable servers").
Proof.
  assert (Hdial : snd (dial "mongodb.example" 2000000000%Z)
                  = Some (EngineError "no reachable servers")) by reflexivity.
  split; [exact Hdial |].
  exact (proj2 (NewClient_fails_iff string_codec string dial collection_of
                  {| ConnectionString := "mongodb.example"; DatabaseName := EmptyString;
                     CollectionName := EmptyString; Codec_ := None |}
                  (EngineError "no reachable servers")) Hdial).
Defined.

Lemma NewClient_explicit_witness :
  "localhost" <> EmptyString /\ "shop" <> EmptyString /\ "carts" <> EmptyString /\
  snd (dial "localhost" 2000000000%Z) = None /\
  NewClient string_codec string dial collection_of
    {| ConnectionString := "localhost"; DatabaseName := "shop";
       CollectionName := "carts"; Codec_ := Some picky_codec |}
  = inl picky.
Proof.
  assert (Hconn : "localhost" <> EmptyString) by discriminate.
  assert (Hdb : "shop" <> EmptyString) by discriminate.
  assert (Hcoll : "carts" <> EmptyString) by discriminate.
  assert (Hdial : snd (dial "localhost" 2000000000%Z) = None) by reflexivity.
  split; [exact Hconn | split; [exact Hdb | split; [exact Hcoll | split; [exact Hdial |]]]].
  exact (NewClient_explicit string_codec string dial collection_of
           "localhost" "shop" "carts" picky_codec Hconn Hdb Hcoll Hdial).
Defined.

End MoreExamples.
